(** * okex-books-buddy: the Bytewax analysis flow

    A shallow embedding of [analysis/bytewax/analysis_flow.py], the M1
    skeleton of the analysis flow: [os.getenv], [print], [main] and the
    module body, over an explicit world (process environment,
    [sys.stdout], the bytes it has produced, and the record of the
    environment lookups made) with an exception channel, and the process
    around them: interpreter start-up, the flush at exit, the exit
    status.

    The queue source, the per-symbol window, the two detectors and the
    emitter are not in the source: its header leaves them to later
    milestones.  Nothing here stands for them. *)

From Stdlib Require Import ZArith Lia.
From stdpp Require Import gmap strings list.

Open Scope string_scope.
Open Scope list_scope.
Open Scope Z_scope.

(** * The Python source *)

Module Py.

(** A Python [str] is kept as the bytes [os.fsencode] gives for it
    (UTF-8 with the surrogateescape handler, the file-system encoding on
    POSIX): this is how [os.environ] reads the bytes of the process
    environment, one [str] for each byte string and back, and the
    literals of the source are ASCII.  A byte below 128 is an ASCII
    character; the bytes from 128 on make up the characters outside
    ASCII. *)

(** The Python values [main] handles: [os.getenv] gives a [str] or
    [None]. *)
Inductive value : Type :=
| VNone
| VStr (s : string).

(** An exception, by the name of its class. *)
Inductive exn : Type :=
| Exn (cls : string).

(** How a call ends: it returns, it raises, or the process is gone
    before it ends because SIGTERM arrived (the source installs no
    handler, so the signal's default action applies). *)
Inductive outcome (A : Type) : Type :=
| Returned (a : A)
| Raised (e : exn)
| Terminated.
Arguments Returned {A} a.
Arguments Raised {A} e.
Arguments Terminated {A}.

(** A text stream as [print] uses it.  [write hist t] is the call
    [file.write(t)] after the texts [hist] were written: the bytes the
    call adds to the output, and the exception it raises, if any (an
    encoder's UnicodeEncodeError, an OSError of the descriptor, a
    ValueError of a closed file).  [flush_at_exit hist] tells whether the
    flush the interpreter makes when it finalizes succeeds. *)
Record stream : Type := Stream {
  write : list string → string → option exn * string;
  flush_at_exit : list string → bool
}.

(** What the program touches: the process environment ([os.environ]),
    [sys.stdout] ([None] when the process has no standard output), the
    texts [sys.stdout] has taken and the bytes it has made of them, the
    number of further calls before SIGTERM arrives ([None]: it does not),
    and, as ghost state, the keys [os.getenv] was called with, in call
    order. *)
Record world : Type := World {
  environ : gmap string string;
  sys_stdout : option stream;
  written : list string;
  stdout : string;
  getenv_calls : list string;
  sigterm_in : option nat
}.

(** The world of a process that has just started, with SIGTERM arriving
    after [sig] calls. *)
Definition started (out : option stream) (env : gmap string string)
    (sig : option nat) : world :=
  {| environ := env; sys_stdout := out; written := []; stdout := "";
     getenv_calls := []; sigterm_in := sig |}.

(** The same with no signal on its way. *)
Definition initial (out : option stream) (env : gmap string string) : world :=
  started out env None.

(** Computations: a state monad over [world] with exceptions. *)
Definition M (A : Type) : Type := world → outcome A * world.

Definition ret {A} (a : A) : M A := λ w, (Returned a, w).

Definition bind {A B} (c : M A) (k : A → M B) : M B :=
  λ w, match c w with
       | (Returned a, w') => k a w'
       | (Raised e, w') => (Raised e, w')
       | (Terminated, w') => (Terminated, w')
       end.

Definition raise {A} (e : exn) : M A := λ w, (Raised e, w).

#[global] Instance M_ret : MRet M := @ret.
#[global] Instance M_bind : MBind M := λ A B k c, bind c k.

(** A point at which a pending SIGTERM is delivered: every call into
    the library is one. *)
Definition checkpoint : M () :=
  λ w, match sigterm_in w with
       | None => (Returned (), w)
       | Some O => (Terminated, w)
       | Some (S n) =>
           (Returned (),
            {| environ := environ w; sys_stdout := sys_stdout w;
               written := written w; stdout := stdout w;
               getenv_calls := getenv_calls w; sigterm_in := Some n |})
       end.

(** [str(v)]. *)
Definition str (v : value) : string :=
  match v with
  | VNone => "None"
  | VStr s => s
  end.

Definition newline : string := String (Ascii.ascii_of_nat 10) "".

(** [os.getenv(key)]: the value of the variable, [None] when it is not
    set (the default of the second parameter). *)
Definition os_getenv (key : string) : M value :=
  checkpoint;;
  ((λ w, (Returned (from_option VStr VNone (environ w !! key)),
          {| environ := environ w; sys_stdout := sys_stdout w;
             written := written w; stdout := stdout w;
             getenv_calls := getenv_calls w ++ [key];
             sigterm_in := sigterm_in w |})) : M value).

(** [file.write(t)]: the stream makes bytes of the text, or raises. *)
Definition file_write (file : stream) (t : string) : M () :=
  checkpoint;;
  ((λ w, match write file (written w) t with
         | (None, bytes) =>
             (Returned (),
              {| environ := environ w; sys_stdout := sys_stdout w;
                 written := written w ++ [t]; stdout := stdout w +:+ bytes;
                 getenv_calls := getenv_calls w;
                 sigterm_in := sigterm_in w |})
         | (Some e, bytes) =>
             raise e
               {| environ := environ w; sys_stdout := sys_stdout w;
                  written := written w; stdout := stdout w +:+ bytes;
                  getenv_calls := getenv_calls w;
                  sigterm_in := sigterm_in w |}
         end) : M ()).

(** The loop of [print] over its positional arguments: the separator,
    one space, before every argument but the first, then the [str] of
    the argument, each in a [write] of its own. *)
Fixpoint write_args (file : stream) (first : bool) (args : list value) : M () :=
  match args with
  | [] => mret ()
  | arg :: rest =>
      (if first then mret () else file_write file " ");;
      file_write file (str arg);;
      write_args file false rest
  end.

(** [print] with positional arguments: nothing when [sys.stdout] is
    [None]; else the arguments, then the end of line, written to it. *)
Definition print (args : list value) : M () :=
  λ w, match sys_stdout w with
       | None => (Returned (), w)
       | Some file => (write_args file true args;; file_write file newline) w
       end.

End Py.

Import Py.

(** [def main()] of analysis_flow.py. *)
Definition main : M () :=
  influx_url ← os_getenv "INFLUX_URL";
  influx_org ← os_getenv "INFLUX_ORG";
  influx_bucket ← os_getenv "INFLUX_BUCKET";
  print [VStr "okex-buddy bytewax analysis flow (M1 skeleton)"];;
  print [VStr "Influx:"; influx_url; influx_org; influx_bucket].

(** The module body: [if __name__ == "__main__": main()]. *)
Definition module_body (name : string) : M () :=
  if decide (name = "__main__") then main else mret ().

(** * The process *)









(** ** Streams and a host *)

(** [s] is ASCII. *)
Fixpoint is_ascii (s : string) : bool :=
  match s with
  | EmptyString => true
  | String c rest => (Ascii.nat_of_ascii c <? 128)%nat && is_ascii rest
  end.

(** The ASCII characters of [s]. *)
Fixpoint ascii_part (s : string) : string :=
  match s with
  | EmptyString => ""
  | String c rest =>
      if (Ascii.nat_of_ascii c <? 128)%nat then String c (ascii_part rest)
      else ascii_part rest
  end.

(** UTF-8 with the surrogateescape handler: the bytes of the text as
    they are.  It is what standard output has in the C locale. *)
Definition utf8_surrogateescape : stream :=
  {| write := λ _ t, (None, t); flush_at_exit := λ _, true |}.

(** ASCII with the strict handler: a text with a character outside
    ASCII raises and adds nothing. *)
Definition ascii_strict : stream :=
  {| write := λ _ t,
       if is_ascii t then (None, t)
       else (Some (Exn "UnicodeEncodeError"), "");
     flush_at_exit := λ _, true |}.

(** ASCII with the ignore handler: the characters outside ASCII are left
    out. *)
Definition ascii_ignore : stream :=
  {| write := λ _ t, (None, ascii_part t); flush_at_exit := λ _, true |}.


(** * Reading the runs *)

(** The variables [main] asks for. *)
Definition influx_vars : list string :=
  ["INFLUX_URL"; "INFLUX_ORG"; "INFLUX_BUCKET"].

(** The configuration options the specification lists as recognized. *)
Inductive ConfigOption : Type :=
| StoreUrl | StoreOrg | StoreBucket
| QueueTarget | QueueKey
| AnomalyRatio | ShrinkageSlopeThreshold | ShrinkageMonotonicityRatio
| ShrinkageCooldown
| RetentionHorizon
| BatchSize | FlushInterval.

#[global] Instance ConfigOption_eq_dec : EqDecision ConfigOption.
Proof. solve_decision. Defined.

Definition all_options : list ConfigOption :=
  [StoreUrl; StoreOrg; StoreBucket; QueueTarget; QueueKey; AnomalyRatio;
   ShrinkageSlopeThreshold; ShrinkageMonotonicityRatio; ShrinkageCooldown;
   RetentionHorizon; BatchSize; FlushInterval].

(** [reads_all_options out var env]: with [var] naming the environment
    variable of each option, distinct options under distinct names, the
    run of [main] in [env] asks the environment for every one of them. *)
Definition reads_all_options (out : option stream)
    (var : ConfigOption → string) (env : gmap string string) : Prop :=
  (∀ o1 o2, var o1 = var o2 → o1 = o2) ∧
  ∀ o, var o ∈ getenv_calls (main (initial out env)).2.

(** What [print] shows for the variable [k]: its value, [None] when it
    is not set. *)
Definition displayed (env : gmap string string) (k : string) : string :=
  str (from_option VStr VNone (env !! k)).

(** The texts the two [print] calls of [main] hand to [sys.stdout], one
    [write] each, in order. *)
Definition pieces (env : gmap string string) : list string :=
  ["okex-buddy bytewax analysis flow (M1 skeleton)"; newline;
   "Influx:"; " "; displayed env "INFLUX_URL"; " ";
   displayed env "INFLUX_ORG"; " "; displayed env "INFLUX_BUCKET"; newline].

(** The stream [file] fed the texts [ts] one after the other, after the
    texts [hist] and the bytes [bytes]: the exception of the first
    [write] that raises, if one does, the texts taken and the bytes
    made by then. *)
Fixpoint feed (file : stream) (hist : list string) (bytes : string)
    (ts : list string) : option exn * list string * string :=
  match ts with
  | [] => (None, hist, bytes)
  | t :: rest =>
      match write file hist t with
      | (None, b) => feed file (hist ++ [t]) (bytes +:+ b) rest
      | (Some e, b) => (Some e, hist, bytes +:+ b)
      end
  end.

(** The bytes a run of [main] in [env] leaves on [out]. *)
Definition printed (out : option stream) (env : gmap string string) : string :=
  stdout (main (initial out env)).2.

(** The characters of the texts [ts], one after the other. *)
Definition characters (ts : list string) : string :=
  foldr String.append "" ts.

(** The number of occurrences of the character [c] in [s]. *)
Fixpoint occurrences (c : Ascii.ascii) (s : string) : nat :=
  match s with
  | EmptyString => 0
  | String x rest =>
      ((if Ascii.eqb x c then 1 else 0) + occurrences c rest)%nat
  end.

Definition line_feed : Ascii.ascii := Ascii.ascii_of_nat 10.

(** ** Environments *)

(** Two environments that agree on the three variables and differ
    elsewhere. *)
Definition env_store_only : gmap string string :=
  <["INFLUX_URL" := "http://influx:8086"]> (<["INFLUX_ORG" := "okex"]> ∅).

Definition env_store_and_queue : gmap string string :=
  <["REDIS_URL" := "redis://localhost:6379"]>
    (<["ANOMALY_RATIO" := "0.5"]> env_store_only).

(** An environment in which only the organization is set. *)
Definition env_org_only : gmap string string := <["INFLUX_ORG" := "okex"]> ∅.

(** The organization [caf] followed by e with an acute accent, U+00E9,
    in UTF-8 the bytes 195 and 169. *)
Definition cafe : string :=
  "caf" +:+ String (Ascii.ascii_of_nat 195) (String (Ascii.ascii_of_nat 169) "").

Definition env_cafe : gmap string string := <["INFLUX_ORG" := cafe]> ∅.



(** ** The runs, step by step *)

(** The texts the loop of [print] hands to [write]. *)
Fixpoint texts (first : bool) (args : list value) : list string :=
  match args with
  | [] => []
  | arg :: rest =>
      (if first then [] else [" "]) ++ str arg :: texts false rest
  end.

(** The world [w] with what [sys.stdout] has taken and made set to
    [hist] and [bytes]. *)
Definition with_output (w : world) (hist : list string) (bytes : string) : world :=
  {| environ := environ w; sys_stdout := sys_stdout w;
     written := hist; stdout := bytes;
     getenv_calls := getenv_calls w; sigterm_in := sigterm_in w |}.

(** The end of a sequence of writes, as an outcome. *)
Definition fed (r : option exn * list string * string) (w : world) :
    outcome () * world :=
  (from_option Raised (Returned ()) r.1.1, with_output w r.1.2 r.2).


(** [file] makes bytes of a text character by character, by [f], and
    rejects none: so do UTF-8 with surrogateescape and ASCII with
    ignore. *)
Definition characterwise (file : stream) (f : string → string) : Prop :=
  (∀ hist t, write file hist t = (None, f t)) ∧
  f "" = "" ∧
  ∀ a b, f (a +:+ b) = f a +:+ f b.



Definition space : Ascii.ascii := Ascii.ascii_of_nat 32.

(** [s] holds no space. *)
Definition space_free (s : string) : Prop := occurrences space s = 0%nat.

(** The output of a run of [main] in the C locale. *)
Definition printed_C (env : gmap string string) : string :=
  printed (Some utf8_surrogateescape) env.

(** [c] makes no lookup. *)
Definition keeps_calls {A} (c : M A) : Prop :=
  ∀ w, getenv_calls (c w).2 = getenv_calls w.

(** * What the script does *)

Lemma append_assoc (a b c : string) : (a +:+ b) +:+ c = a +:+ (b +:+ c).
Proof.
  induction a as [| x a IH]; [reflexivity |].
  change (String x ((a +:+ b) +:+ c) = String x (a +:+ (b +:+ c))).
  by rewrite IH.
Qed.

Section Quiet.

(** Runs with no signal on its way. *)
Implicit Types (w : world) (file : stream) (ts : list string).

Lemma with_output_id w : with_output w (written w) (stdout w) = w.
Proof. by destruct w. Qed.

Lemma checkpoint_quiet w :
  sigterm_in w = None → checkpoint w = (Returned (), w).
Proof. unfold checkpoint. by intros ->. Qed.

Lemma file_write_quiet file t w :
  sigterm_in w = None →
  file_write file t w = fed (feed file (written w) (stdout w) [t]) w.
Proof.
  intros Hq. unfold file_write, mbind, M_bind, bind.
  rewrite checkpoint_quiet by done.
  unfold fed. cbn [feed].
  by destruct (write file (written w) t) as [[e |] b].
Qed.

Lemma feed_app file hist bytes ts1 ts2 :
  feed file hist bytes (ts1 ++ ts2) =
    match feed file hist bytes ts1 with
    | (None, h, b) => feed file h b ts2
    | r => r
    end.
Proof.
  revert hist bytes. induction ts1 as [| t ts1 IH]; intros hist bytes.
  - reflexivity.
  - cbn [app feed]. destruct (write file hist t) as [[e |] b]; [done |].
    apply IH.
Qed.

(** A sequence of writes after another, on worlds. *)
Lemma fed_then file ts1 ts2 w (k : M ()) :
  (∀ w', sigterm_in w' = None → sys_stdout w' = sys_stdout w →
         environ w' = environ w → getenv_calls w' = getenv_calls w →
         k w' = fed (feed file (written w') (stdout w') ts2) w') →
  sigterm_in w = None →
  match fed (feed file (written w) (stdout w) ts1) w with
  | (Returned _, w') => k w'
  | (Raised e, w') => (Raised e, w')
  | (Terminated, w') => (Terminated, w')
  end = fed (feed file (written w) (stdout w) (ts1 ++ ts2)) w.
Proof.
  intros Hk Hq. rewrite feed_app.
  destruct (feed file (written w) (stdout w) ts1) as [[[e |] h] b];
    unfold fed at 1; cbn [fst snd from_option]; [done |].
  rewrite Hk by done. unfold fed, with_output. reflexivity.
Qed.

Lemma write_args_quiet file first args w :
  sigterm_in w = None →
  write_args file first args w =
    fed (feed file (written w) (stdout w) (texts first args)) w.
Proof.
  revert first w. induction args as [| arg rest IH]; intros first w Hq.
  - unfold fed. cbn. by rewrite with_output_id.
  - cbn [write_args texts]. unfold mbind, M_bind, bind.
    destruct first.
    + cbn [mret M_ret ret app]. rewrite file_write_quiet by done.
      rewrite (fed_then file [str arg] (texts false rest) w); [done | | done].
      intros w' Hq' _ _ _. by apply IH.
    + rewrite file_write_quiet by done.
      rewrite (fed_then file [" "] (str arg :: texts false rest) w); [done | | done].
      intros w' Hq' _ _ _. rewrite file_write_quiet by done.
      rewrite (fed_then file [str arg] (texts false rest) w'); [done | | done].
      intros w'' Hq'' _ _ _. by apply IH.
Qed.

Lemma print_quiet file args w :
  sigterm_in w = None → sys_stdout w = Some file →
  print args w =
    fed (feed file (written w) (stdout w) (texts true args ++ [newline])) w.
Proof.
  intros Hq Hout. unfold print. rewrite Hout. unfold mbind, M_bind, bind.
  rewrite write_args_quiet by done.
  apply fed_then; [| done].
  intros w' Hq' _ _ _. by apply file_write_quiet.
Qed.

Lemma print_no_stdout args w :
  sys_stdout w = None → print args w = (Returned (), w).
Proof. intros Hout. unfold print. by rewrite Hout. Qed.

Lemma os_getenv_quiet key w :
  sigterm_in w = None →
  os_getenv key w =
    (Returned (from_option VStr VNone (environ w !! key)),
     {| environ := environ w; sys_stdout := sys_stdout w;
        written := written w; stdout := stdout w;
        getenv_calls := getenv_calls w ++ [key];
        sigterm_in := None |}).
Proof.
  intros Hq. unfold os_getenv, mbind, M_bind, bind.
  rewrite checkpoint_quiet by done. by rewrite Hq.
Qed.

(** The world a run of [main] leaves: three lookups, then the ten
    texts to [sys.stdout] as far as it takes them. *)
Lemma main_unfold w :
  sigterm_in w = None →
  main w =
    match sys_stdout w with
    | None =>
        (Returned (),
         {| environ := environ w; sys_stdout := None;
            written := written w; stdout := stdout w;
            getenv_calls := getenv_calls w ++ influx_vars;
            sigterm_in := None |})
    | Some file =>
        let r := feed file (written w) (stdout w) (pieces (environ w)) in
        (from_option Raised (Returned ()) r.1.1,
         {| environ := environ w; sys_stdout := Some file;
            written := r.1.2; stdout := r.2;
            getenv_calls := getenv_calls w ++ influx_vars;
            sigterm_in := None |})
    end.
Proof.
  intros Hq. unfold main, mbind, M_bind, bind.
  rewrite os_getenv_quiet by done.
  rewrite os_getenv_quiet by done.
  rewrite os_getenv_quiet by done.
  cbn [environ sys_stdout written stdout getenv_calls sigterm_in].
  rewrite <- !app_assoc. cbn [app]. fold influx_vars.
  destruct (sys_stdout w) as [file |] eqn:Hout.
  - rewrite (print_quiet file) by done.
    cbn [written stdout].
    match goal with |- context [fed ?r ?w0] => 
      rewrite (fed_then file _ (texts true [VStr "Influx:";
                 from_option VStr VNone (environ w !! "INFLUX_URL");
                 from_option VStr VNone (environ w !! "INFLUX_ORG");
                 from_option VStr VNone (environ w !! "INFLUX_BUCKET")] ++ [newline]) w0)
    end; [reflexivity | | done].
    intros w' Hq' Hout' _ _. by apply print_quiet.
  - rewrite !print_no_stdout by done. reflexivity.
Qed.

End Quiet.

(** ** The runs at a glance *)

Example main_all_unset :
  main (initial (Some utf8_surrogateescape) ∅) =
    (Returned (),
     {| environ := ∅; sys_stdout := Some utf8_surrogateescape;
        written := pieces ∅;
        stdout := "okex-buddy bytewax analysis flow (M1 skeleton)" +:+ newline
                  +:+ "Influx: None None None" +:+ newline;
        getenv_calls := influx_vars; sigterm_in := None |}).
Proof. reflexivity. Qed.

Example main_all_set :
  printed_C (<["INFLUX_URL" := "http://influx:8086"]>
            (<["INFLUX_ORG" := "okex"]>
            (<["INFLUX_BUCKET" := "books"]> ∅))) =
    "okex-buddy bytewax analysis flow (M1 skeleton)" +:+ newline
    +:+ "Influx: http://influx:8086 okex books" +:+ newline.
Proof. vm_compute. reflexivity. Qed.

Example main_no_stdout :
  main (initial None env_cafe) =
    (Returned (),
     {| environ := env_cafe; sys_stdout := None; written := []; stdout := "";
        getenv_calls := influx_vars; sigterm_in := None |}).
Proof. reflexivity. Qed.

(** Imported as a module, the file defines [main] and runs nothing. *)
Lemma module_body_imported (name : string) (w : world) :
  name ≠ "__main__" → module_body name w = (Returned (), w).
Proof. intros Hne. unfold module_body. by rewrite decide_False. Qed.




Lemma characters_app (ts1 ts2 : list string) :
  characters (ts1 ++ ts2) = characters ts1 +:+ characters ts2.
Proof.
  induction ts1 as [| t ts1 IH]; [reflexivity |].
  cbn [app characters foldr]. fold (characters (ts1 ++ ts2)).
  fold (characters ts1). by rewrite IH, append_assoc.
Qed.

Lemma feed_characterwise (file : stream) (f : string → string)
    (hist : list string) (bytes : string) (ts : list string) :
  characterwise file f →
  feed file hist bytes ts = (None, hist ++ ts, bytes +:+ f (characters ts)).
Proof.
  intros (Hw & Hnil & Happ). revert hist bytes.
  induction ts as [| t ts IH]; intros hist bytes.
  - cbn. rewrite Hnil, app_nil_r. f_equal.
    clear. induction bytes as [| c s IHs]; [reflexivity |].
    change (String c s = String c (s +:+ "")). by rewrite <- IHs.
  - cbn [feed]. rewrite Hw, IH. rewrite <- app_assoc.
    cbn [characters foldr]. fold (characters ts).
    by rewrite Happ, append_assoc.
Qed.

Lemma utf8_surrogateescape_characterwise :
  characterwise utf8_surrogateescape (λ t, t).
Proof. done. Qed.

Lemma ascii_part_append (a b : string) :
  ascii_part (a +:+ b) = ascii_part a +:+ ascii_part b.
Proof.
  induction a as [| c a IH]; [reflexivity |].
  change (String c a +:+ b) with (String c (a +:+ b)).
  cbn [ascii_part]. rewrite IH. by destruct (_ <? _)%nat.
Qed.

Lemma ascii_ignore_characterwise : characterwise ascii_ignore ascii_part.
Proof. split; [done |]. split; [done |]. apply ascii_part_append. Qed.

(** On a stream that works character by character the output of
    [main] is that of the characters of the ten texts. *)
Lemma printed_characterwise (file : stream) (f : string → string)
    (env : gmap string string) :
  characterwise file f →
  (main (initial (Some file) env)).1 = Returned () ∧
  printed (Some file) env = f (characters (pieces env)).
Proof.
  intros Hf. unfold printed. rewrite main_unfold by done.
  cbn [initial started sys_stdout written stdout environ].
  rewrite (feed_characterwise file f) by done. done.
Qed.

(** C1 (as stated, refuted): there is no way to name the twelve listed
    options by distinct environment variables so that a run of [main],
    here in the empty environment, on whatever standard output, reads
    them all: the run makes three lookups. *)
Lemma main_cannot_read_all_options :
  ¬ ∃ (out : option stream) (var : ConfigOption → string),
      reads_all_options out var ∅.
Proof.
  intros (out & var & Hinj & Hread).
  assert (Hnd : NoDup (var <$> all_options)).
  { apply NoDup_fmap_2_strong.
    - intros x y _ _. apply Hinj.
    - apply (bool_decide_unpack _). vm_compute. reflexivity. }
  assert (Hsub : var <$> all_options ⊆+ influx_vars).
  { apply NoDup_submseteq; [exact Hnd |].
    intros x (o & -> & _)%list_elem_of_fmap.
    specialize (Hread o). rewrite main_unfold in Hread by done.
    by destruct out. }
  apply submseteq_length in Hsub. cbn in Hsub. lia.
Qed.

(** C1 (amended): in every process environment, and on whatever
    standard output, [main] reads exactly three options from the
    environment, the time-series store URL, organization and bucket, as
    INFLUX_URL, INFLUX_ORG and INFLUX_BUCKET in this order, and nothing
    else; it has read them before it prints, so also when a [print]
    raises. *)
Theorem main_reads_exactly_influx_vars (out : option stream)
    (env : gmap string string) :
  getenv_calls (main (initial out env)).2 = influx_vars.
Proof. rewrite main_unfold by done. by destruct out. Qed.










(** * The lookups, signal or not *)

Section Lookups.

Lemma keeps_calls_ret {A} (a : A) : keeps_calls (mret a : M A).
Proof. done. Qed.

Lemma keeps_calls_bind {A B} (c : M A) (k : A → M B) :
  keeps_calls c → (∀ a, keeps_calls (k a)) → keeps_calls (c ≫= k).
Proof.
  intros Hc Hk w. unfold mbind, M_bind, bind.
  specialize (Hc w). destruct (c w) as [[a | e |] w']; cbn in *; [| done | done].
  by rewrite Hk.
Qed.

Lemma keeps_calls_checkpoint : keeps_calls checkpoint.
Proof. intros w. unfold checkpoint. by destruct (sigterm_in w) as [[| n] |]. Qed.

Lemma keeps_calls_file_write file t : keeps_calls (file_write file t).
Proof.
  apply keeps_calls_bind; [apply keeps_calls_checkpoint |].
  intros _ w. by destruct (write file (written w) t) as [[e |] b].
Qed.

Lemma keeps_calls_write_args file first args :
  keeps_calls (write_args file first args).
Proof.
  revert first. induction args as [| arg rest IH]; intros first.
  - apply keeps_calls_ret.
  - cbn [write_args]. apply keeps_calls_bind.
    + destruct first; [apply keeps_calls_ret | apply keeps_calls_file_write].
    + intros _. apply keeps_calls_bind; [apply keeps_calls_file_write |].
      intros _. apply IH.
Qed.

Lemma keeps_calls_print args : keeps_calls (print args).
Proof.
  intros w. unfold print. destruct (sys_stdout w) as [file |]; [| done].
  apply (keeps_calls_bind (write_args file true args)
           (λ _, file_write file newline)).
  - apply keeps_calls_write_args.
  - intros _. apply keeps_calls_file_write.
Qed.

Lemma os_getenv_calls key w v w' :
  os_getenv key w = (Returned v, w') →
  getenv_calls w' = getenv_calls w ++ [key].
Proof.
  unfold os_getenv, mbind, M_bind, bind.
  pose proof (keeps_calls_checkpoint w) as Hc.
  destruct (checkpoint w) as [[[] | e |] w1]; cbn in Hc; [| done | done].
  intros [= _ <-]. cbn. by rewrite Hc.
Qed.

(** A call of [main] that returns has made the three lookups,
    whatever the world it started in. *)
Lemma main_returned_calls w w' :
  main w = (Returned (), w') →
  getenv_calls w' = getenv_calls w ++ influx_vars.
Proof.
  unfold main, mbind, M_bind, bind.
  destruct (os_getenv "INFLUX_URL" w) as [[v1 | e |] w1] eqn:H1; [| done | done].
  destruct (os_getenv "INFLUX_ORG" w1) as [[v2 | e |] w2] eqn:H2; [| done | done].
  destruct (os_getenv "INFLUX_BUCKET" w2) as [[v3 | e |] w3] eqn:H3; [| done | done].
  apply os_getenv_calls in H1, H2, H3.
  pose proof (keeps_calls_print
    [VStr "okex-buddy bytewax analysis flow (M1 skeleton)"] w3) as Hp1.
  destruct (print _ w3) as [[[] | e |] w4]; cbn in Hp1; [| done | done].
  intros H.
  pose proof (keeps_calls_print [VStr "Influx:"; v1; v2; v3] w4) as Hp2.
  rewrite H in Hp2. cbn in Hp2.
  rewrite Hp2, Hp1, H3, H2, H1, <- !app_assoc. reflexivity.
Qed.

End Lookups.

(** * What the output tells about the environment *)

Section StringFacts.

Implicit Types (a b x y r : string) (c : Ascii.ascii).

Lemma length_append x y :
  String.length (x +:+ y) = (String.length x + String.length y)%nat.
Proof.
  induction x as [| c x IH]; [reflexivity |].
  change (S (String.length (x +:+ y)) = S (String.length x + String.length y)).
  by rewrite IH.
Qed.

Lemma append_cons c x y : String c x +:+ y = String c (x +:+ y).
Proof. reflexivity. Qed.

Lemma append_nil_l x : "" +:+ x = x.
Proof. reflexivity. Qed.


Lemma append_inj_l a x y : a +:+ x = a +:+ y → x = y.
Proof.
  induction a as [| c a IH]; [done |].
  rewrite !append_cons. intros [= H]. by apply IH.
Qed.

Lemma append_inj_r a x y : x +:+ a = y +:+ a → x = y.
Proof.
  revert y. induction x as [| c x IH]; intros [| d y] H.
  - reflexivity.
  - apply (f_equal String.length) in H.
    rewrite append_cons, append_nil_l in H. cbn [String.length] in H.
    rewrite length_append in H. lia.
  - apply (f_equal String.length) in H.
    rewrite append_cons, append_nil_l in H. cbn [String.length] in H.
    rewrite length_append in H. lia.
  - rewrite !append_cons in H. injection H as -> H. f_equal. by apply IH.
Qed.

Lemma occurrences_append c x y :
  occurrences c (x +:+ y) = (occurrences c x + occurrences c y)%nat.
Proof.
  induction x as [| d x IH]; [reflexivity |].
  rewrite append_cons. cbn [occurrences]. rewrite IH. lia.
Qed.

(** A text without space followed by a space is cut at that space in
    one way only. *)
Lemma split_at_first_space x y r r' :
  space_free x → space_free y →
  x +:+ " " +:+ r = y +:+ " " +:+ r' → x = y ∧ r = r'.
Proof.
  unfold space_free. revert y.
  induction x as [| c x IH]; intros [| d y] Hx Hy H.
  - change (String space r = String space r') in H. by injection H as ->.
  - change (String space r = String d (y +:+ " " +:+ r')) in H.
    injection H as <- _. cbn in Hy. discriminate Hy.
  - change (String c (x +:+ " " +:+ r) = String space r') in H.
    injection H as -> _. cbn in Hx. discriminate Hx.
  - rewrite !append_cons in H. injection H as -> H.
    cbn [occurrences] in Hx, Hy.
    destruct (IH y) as [-> ->]; [lia | lia | exact H | done].
Qed.

End StringFacts.

Section OutputFacts.

Implicit Types (env : gmap string string) (k j : string) (w : world).


(** The two lines in the C locale, in terms of what each variable
    displays. *)
Lemma printed_C_form env :
  printed_C env =
    "okex-buddy bytewax analysis flow (M1 skeleton)" +:+ newline
    +:+ "Influx: "
    +:+ displayed env "INFLUX_URL" +:+ " "
    +:+ displayed env "INFLUX_ORG" +:+ " "
    +:+ displayed env "INFLUX_BUCKET" +:+ newline.
Proof.
  unfold printed_C.
  by destruct (printed_characterwise _ _ env utf8_surrogateescape_characterwise)
    as [_ ->].
Qed.


Lemma displayed_insert_None env k j :
  env !! k = None → displayed (<[k := "None"]> env) j = displayed env j.
Proof.
  intros Hk. unfold displayed. destruct (decide (k = j)) as [<- | Hne].
  - by rewrite lookup_insert_eq, Hk.
  - by rewrite lookup_insert_ne.
Qed.

Lemma pieces_ext env1 env2 :
  Forall (λ k, displayed env1 k = displayed env2 k) influx_vars →
  pieces env1 = pieces env2.
Proof.
  intros H. unfold pieces, influx_vars in *.
  apply Forall_cons in H as [-> H].
  apply Forall_cons in H as [-> H].
  apply Forall_cons in H as [-> _].
  reflexivity.
Qed.

Lemma printed_ext out env1 env2 :
  Forall (λ k, displayed env1 k = displayed env2 k) influx_vars →
  printed out env1 = printed out env2.
Proof.
  intros H%pieces_ext. unfold printed. rewrite !main_unfold by done.
  cbn [initial started sys_stdout written stdout environ].
  rewrite H. by destruct out.
Qed.

(** Cutting the two printed lines back into the three displayed
    values. *)
Lemma printed_C_inv env1 env2 :
  printed_C env1 = printed_C env2 →
  displayed env1 "INFLUX_URL" +:+ " "
    +:+ displayed env1 "INFLUX_ORG" +:+ " "
    +:+ displayed env1 "INFLUX_BUCKET" +:+ newline =
  displayed env2 "INFLUX_URL" +:+ " "
    +:+ displayed env2 "INFLUX_ORG" +:+ " "
    +:+ displayed env2 "INFLUX_BUCKET" +:+ newline.
Proof.
  rewrite !printed_C_form. intros H.
  do 3 apply append_inj_l in H. exact H.
Qed.

End OutputFacts.

(** X1: a variable that is not set is printed as [None], exactly like a
    variable set to the text [None]: setting an unset variable to that
    text changes nothing in the output of [main], on whatever standard
    output. *)
Theorem unset_prints_like_None_text (out : option stream)
    (env : gmap string string) (k : string) :
  env !! k = None →
  printed out (<[k := "None"]> env) = printed out env.
Proof.
  intros Hk. apply printed_ext.
  apply Forall_forall. intros j _. by apply displayed_insert_None.
Qed.

(** X1 at an environment with the organization only, for INFLUX_URL,
    on an ASCII standard output. *)
Lemma unset_prints_like_None_text_witness :
  env_org_only !! "INFLUX_URL" = None ∧
  printed (Some ascii_strict) (<["INFLUX_URL" := "None"]> env_org_only) =
  printed (Some ascii_strict) env_org_only.
Proof.
  assert (H : env_org_only !! "INFLUX_URL" = None) by reflexivity.
  split; [exact H |].
  exact (unset_prints_like_None_text (Some ascii_strict) env_org_only
           "INFLUX_URL" H).
Defined.



(** X3: in the C locale, when the URL and the organization are displayed
    without a space, the output determines all three displayed values:
    two environments with the same output display the same three
    values. *)
Theorem output_determines_space_free_values (env1 env2 : gmap string string) :
  space_free (displayed env1 "INFLUX_URL") →
  space_free (displayed env1 "INFLUX_ORG") →
  space_free (displayed env2 "INFLUX_URL") →
  space_free (displayed env2 "INFLUX_ORG") →
  printed_C env1 = printed_C env2 →
  Forall (λ k, displayed env1 k = displayed env2 k) influx_vars.
Proof.
  intros Hu1 Ho1 Hu2 Ho2 H%printed_C_inv.
  apply split_at_first_space in H as [Hu H]; [| done | done].
  apply split_at_first_space in H as [Ho H]; [| done | done].
  apply append_inj_r in H.
  repeat constructor; done.
Qed.

(** X3 at two environments that differ outside the three variables. *)
Lemma output_determines_space_free_values_witness :
  (space_free (displayed env_store_only "INFLUX_URL") ∧
   space_free (displayed env_store_only "INFLUX_ORG") ∧
   space_free (displayed env_store_and_queue "INFLUX_URL") ∧
   space_free (displayed env_store_and_queue "INFLUX_ORG") ∧
   printed_C env_store_only = printed_C env_store_and_queue) ∧
  Forall (λ k, displayed env_store_only k = displayed env_store_and_queue k)
         influx_vars.
Proof.
  assert (H1 : space_free (displayed env_store_only "INFLUX_URL")) by reflexivity.
  assert (H2 : space_free (displayed env_store_only "INFLUX_ORG")) by reflexivity.
  assert (H3 : space_free (displayed env_store_and_queue "INFLUX_URL"))
    by reflexivity.
  assert (H4 : space_free (displayed env_store_and_queue "INFLUX_ORG"))
    by reflexivity.
  assert (H5 : printed_C env_store_only = printed_C env_store_and_queue)
    by reflexivity.
  split; [exact (conj H1 (conj H2 (conj H3 (conj H4 H5)))) |].
  exact (output_determines_space_free_values _ _ H1 H2 H3 H4 H5).
Defined.

(** X4: in the C locale each of the three variables shows in the output:
    if two environments display the same for the other two and the
    outputs are equal, they display the same for the third, spaces or
    not. *)
Theorem each_variable_shows_in_output (env1 env2 : gmap string string)
    (k : string) :
  k ∈ influx_vars →
  (∀ j, j ∈ influx_vars → j ≠ k → displayed env1 j = displayed env2 j) →
  printed_C env1 = printed_C env2 →
  displayed env1 k = displayed env2 k.
Proof.
  intros Hk Hothers H%printed_C_inv.
  assert (Hin : ∀ j, j ∈ influx_vars ↔
            j = "INFLUX_URL" ∨ j = "INFLUX_ORG" ∨ j = "INFLUX_BUCKET").
  { intros j. unfold influx_vars. rewrite !elem_of_cons, elem_of_nil. tauto. }
  apply Hin in Hk as [-> | [-> | ->]].
  - rewrite (Hothers "INFLUX_ORG"), (Hothers "INFLUX_BUCKET") in H
      by (rewrite ?Hin; auto).
    by apply append_inj_r in H.
  - rewrite (Hothers "INFLUX_URL"), (Hothers "INFLUX_BUCKET") in H
      by (rewrite ?Hin; auto).
    apply append_inj_l in H. apply append_inj_l in H.
    by apply append_inj_r in H.
  - rewrite (Hothers "INFLUX_URL"), (Hothers "INFLUX_ORG") in H
      by (rewrite ?Hin; auto).
    do 4 apply append_inj_l in H.
    by apply append_inj_r in H.
Qed.

(** X4 at two environments that differ outside the three variables, for
    INFLUX_URL. *)
Lemma each_variable_shows_in_output_witness :
  ("INFLUX_URL" ∈ influx_vars ∧
   (∀ j, j ∈ influx_vars → j ≠ "INFLUX_URL" →
         displayed env_store_only j = displayed env_store_and_queue j) ∧
   printed_C env_store_only = printed_C env_store_and_queue) ∧
  displayed env_store_only "INFLUX_URL" =
  displayed env_store_and_queue "INFLUX_URL".
Proof.
  assert (H1 : "INFLUX_URL" ∈ influx_vars) by apply list_elem_of_here.
  assert (H2 : ∀ j, j ∈ influx_vars → j ≠ "INFLUX_URL" →
            displayed env_store_only j = displayed env_store_and_queue j).
  { intros j Hj _. unfold influx_vars in Hj.
    rewrite !elem_of_cons, elem_of_nil in Hj.
    destruct Hj as [-> | [-> | [-> | []]]]; reflexivity. }
  assert (H3 : printed_C env_store_only = printed_C env_store_and_queue)
    by reflexivity.
  split; [exact (conj H1 (conj H2 H3)) |].
  exact (each_variable_shows_in_output _ _ "INFLUX_URL" H1 H2 H3).
Defined.



(** X6: the guard at the end of the file: the module body returns with
    the world as it was exactly when the module runs under a name other
    than [__main__]: imported, it prints nothing and looks nothing up;
    as the script it calls [main], which makes its lookups before it
    returns, if it does. *)
Theorem module_body_runs_main_only_as_script (name : string) (w : world) :
  module_body name w = (Returned (), w) ↔ name ≠ "__main__".
Proof.
  unfold module_body. split.
  - intros H ->. rewrite decide_True in H by done.
    apply main_returned_calls in H.
    apply (f_equal length) in H. rewrite length_app in H. cbn in H. lia.
  - intros Hne. by rewrite decide_False.
Qed.

(** X7: in the C locale the output holds two line feeds of its own: it
    is exactly two lines long unless a displayed value itself holds a
    line feed, and each of those adds one. *)
Theorem printed_line_feeds (env : gmap string string) :
  occurrences line_feed (printed_C env) =
    (2 + occurrences line_feed (displayed env "INFLUX_URL")
       + occurrences line_feed (displayed env "INFLUX_ORG")
       + occurrences line_feed (displayed env "INFLUX_BUCKET"))%nat.
Proof.
  rewrite printed_C_form, !occurrences_append.
  change (occurrences line_feed "okex-buddy bytewax analysis flow (M1 skeleton)")
    with 0%nat.
  change (occurrences line_feed newline) with 1%nat.
  change (occurrences line_feed "Influx: ") with 0%nat.
  change (occurrences line_feed " ") with 0%nat.
  lia.
Qed.


